(** * MedChain Oracle backend: a shallow embedding of [main.py]

    The service is a FastAPI application with four routes.  Three of them
    return constant dictionaries; [POST /verify] fabricates a verdict from
    three draws of Python's [random] module.  The embedding follows the
    source: Python floats are IEEE 754 binary64 values, modelled by the
    rational they denote with every rounding written out; the hidden
    generator of the [random] module is threaded explicitly through a small
    state monad; dictionaries are association lists in insertion order.

    The first part holds the definitions, the second the theorems. *)

From Stdlib Require Import ZArith QArith Qround Qpower Qabs Lqa Lia.
From Stdlib Require Import List String Ascii Bool HexString PeanoNat Floats.
Import ListNotations.

(** * Part I: the program *)

(** ** Binary64 arithmetic

    A finite double is the rational it denotes.  An operation of the
    language computes the exact rational result and rounds it to the nearest
    double, ties to even ([rnd]).  The exponent range is bounded below
    (subnormals, [emin]) and left open above: no value of this program
    exceeds 100.  The two zeros are not told apart. *)

Module Float64.

Local Open Scope Q_scope.

Definition prec : Z := 53.
Definition emin : Z := -1074.

(** [ilog2 x] is the integer part of the binary logarithm of [x > 0]. *)
Definition ilog2 (x : Q) : Z :=
  let l := (Z.log2 (Qnum x) - Z.log2 (Zpos (Qden x)))%Z in
  if Qle_bool (2 ^ l) x then l else (l - 1)%Z.

(** Exponent of the unit in the last place of the binade of [x]. *)
Definition fexp (x : Q) : Z := Z.max (ilog2 x - (prec - 1)) emin.

(** Nearest integer, ties to the even one. *)
Definition round_half_even (x : Q) : Z :=
  let f := Qfloor x in
  match Qcompare (x - inject_Z f) (1 # 2) with
  | Lt => f
  | Gt => (f + 1)%Z
  | Eq => if Z.even f then f else (f + 1)%Z
  end.

(** Round to the nearest double. *)
Definition rnd (x : Q) : Q :=
  if Qeq_bool x 0 then 0
  else let e := fexp (Qabs x) in
       inject_Z (round_half_even (x / 2 ^ e)) * 2 ^ e.

Definition fadd (x y : Q) : Q := rnd (x + y).
Definition fsub (x y : Q) : Q := rnd (x - y).
Definition fmul (x y : Q) : Q := rnd (x * y).

(** [x > y] on floats. *)
Definition fgtb (x y : Q) : bool := negb (Qle_bool x y).

(** A decimal literal of the source denotes the nearest double. *)
Definition literal (num : Z) (den : positive) : Q := rnd (num # den).

(** An [int] operand of a float operation is converted first. *)
Definition of_int (n : Z) : Q := rnd (inject_Z n).

(** [round(x, ndigits)] on a float (CPython's [double_round]): the exact
    value of [x] is rounded to [ndigits] decimals, ties to even, which gives
    the integer [decimal_digits x ndigits] of decimal digits; the decimal
    result is converted back to the nearest double. *)
Definition decimal_digits (x : Q) (ndigits : Z) : Z :=
  round_half_even (x * inject_Z (10 ^ ndigits)).

Definition py_round (x : Q) (ndigits : Z) : Q :=
  rnd (inject_Z (decimal_digits x ndigits) / inject_Z (10 ^ ndigits)).

(** The rational denoted by a machine float, to compare [rnd] with the
    arithmetic of the machine. *)
Definition of_spec_float (f : spec_float) : Q :=
  match f with
  | S754_finite s m e => inject_Z (if s then Z.neg m else Z.pos m) * 2 ^ e
  | _ => 0
  end.

Definition of_machine (f : float) : Q := of_spec_float (Prim2SF f).

End Float64.

(** ** The [random] module

    [main.py] draws from the hidden generator of Python's [random] module,
    which the process seeds from the operating system.  The generator is
    abstract here: a state, the 53 random bits behind [random.random()], and
    the bounded integer draw behind [random.randint].  The two laws are the
    documented ranges of those draws. *)

Module Random.

Record Source : Type := {
  gen : Type;
  random53 : gen -> Z * gen;
  randbelow : Z -> gen -> Z * gen;
  random53_range : forall g, (0 <= fst (random53 g) < 2 ^ 53)%Z;
  randbelow_range :
    forall n g, (0 < n)%Z -> (0 <= fst (randbelow n g) < n)%Z
}.

(** Computations that draw: the generator state is threaded through. *)
Definition Rand (S : Source) (A : Type) : Type := gen S -> A * gen S.

Definition ret {S : Source} {A : Type} (a : A) : Rand S A := fun g => (a, g).

Definition bind {S : Source} {A B : Type}
  (m : Rand S A) (k : A -> Rand S B) : Rand S B :=
  fun g => k (fst (m g)) (snd (m g)).

(** [random.random()]: the float [k * 2**-53] for 53 random bits [k]. *)
Definition random {S : Source} : Rand S Q :=
  fun g => (fst (random53 S g) # 2 ^ 53, snd (random53 S g)).

(** The largest value of [random.random()]. *)
Definition random_max : Q := (2 ^ 53 - 1) # 2 ^ 53.

(** [random.uniform(a, b)] is [a + (b - a) * random()]. *)
Definition uniform {S : Source} (a b : Q) : Rand S Q :=
  bind random (fun u =>
  ret (Float64.fadd a (Float64.fmul (Float64.fsub b a) u))).

(** [random.randint(a, b)] is [a + _randbelow(b - a + 1)]. *)
Definition randint {S : Source} (a b : Z) : Rand S Z :=
  bind (randbelow S (b - a + 1)) (fun r => ret (a + r)%Z).

(** A generator that replays a script of raw draws, reduced to the range
    asked for; it yields 0 once the script is exhausted. *)
Definition scripted_random53 (g : list Z) : Z * list Z :=
  match g with
  | [] => (0%Z, [])
  | k :: rest => ((k mod 2 ^ 53)%Z, rest)
  end.

Definition scripted_randbelow (n : Z) (g : list Z) : Z * list Z :=
  match g with
  | [] => (0%Z, [])
  | k :: rest => ((k mod n)%Z, rest)
  end.

End Random.

Notation "x <- m ;; k" := (Random.bind m (fun x => k))
  (at level 61, m at next level, right associativity).

(** ** The service *)

(** A JSON value of a response body; every number the service returns is a
    float. *)
Inductive json : Type :=
| JBool (b : bool)
| JFloat (x : Q)
| JString (s : string).

(** A dictionary literal, in insertion order. *)
Definition dict : Type := list (string * json).

Fixpoint field (key : string) (d : dict) : option json :=
  match d with
  | [] => None
  | (k, v) :: rest => if String.eqb k key then Some v else field key rest
  end.

Definition keys (d : dict) : list string := map fst d.

(** The upload handed to the handler by the framework. *)
Record UploadFile : Type := {
  filename : string;
  content_type : string;
  content : list Byte.byte
}.

Definition size (f : UploadFile) : Z := Z.of_nat (List.length (content f)).

Record response : Type := {
  status_code : Z;
  body : dict
}.

(** [format(n, "064x")]: lower-case hexadecimal digits, padded with zeros
    to 64 characters (after the sign, if any). *)
Definition zfill (width : nat) (s : string) : string :=
  String.concat "" (repeat "0"%string (width - String.length s)) ++ s.

Definition format_064x (n : Z) : string :=
  match n with
  | Z0 => zfill 64 "0"
  | Zpos p => zfill 64 (HexString.Raw.of_pos p "")
  | Zneg p => "-" ++ zfill 63 (HexString.Raw.of_pos p "")
  end.

Section Handlers.

Context {S : Random.Source}.

Definition read_root : dict :=
  [("status", JString "MedChain Oracle Backend - Live");
   ("version", JString "1.0.0")]%string.

Definition health_check : dict :=
  [("status", JString "healthy");
   ("service", JString "medchain-oracle-api")]%string.

Definition verify_drug (file : UploadFile) : Random.Rand S dict :=
  confidence <- Random.uniform (Float64.literal 55 100) (Float64.literal 95 100) ;;
  let is_authentic := Float64.fgtb confidence (Float64.literal 5 10) in
  anomaly <- Random.uniform (Float64.literal 1 10) (Float64.literal 5 10) ;;
  hash <- Random.randint (10 ^ 63) (10 ^ 64 - 1) ;;
  Random.ret
    [("authentic", JBool is_authentic);
     ("confidence",
      JFloat (Float64.py_round (Float64.fmul confidence (Float64.of_int 100)) 1));
     ("risk_level", JString (if is_authentic then "LOW" else "HIGH"));
     ("anomaly_score", JFloat (Float64.py_round anomaly 3));
     ("blockchain_hash", JString ("0x" ++ format_064x hash))]%string.

Definition predict_shortage : dict :=
  [("drug", JString "Insulin Glargine 100U/mL");
   ("location", JString "Mumbai Central");
   ("risk_score", JFloat (Float64.literal 850 10));
   ("recommendation", JString "URGENT: Order 259 units immediately")]%string.

(** The requests the four routes accept.  Anything else is answered by the
    framework and never reaches [main.py]. *)
Inductive request : Type :=
| GetRoot
| GetHealth
| PostVerify (file : UploadFile)
| GetShortagePrediction.

(** A handler that returns is answered with status 200 and the dictionary
    as the JSON body; no handler of [main.py] raises or sets another
    status. *)
Definition ok (d : dict) : response := {| status_code := 200; body := d |}.

Definition app (r : request) : Random.Rand S response :=
  match r with
  | GetRoot => Random.ret (ok read_root)
  | GetHealth => Random.ret (ok health_check)
  | PostVerify file => d <- verify_drug file ;; Random.ret (ok d)
  | GetShortagePrediction => Random.ret (ok predict_shortage)
  end.

End Handlers.

(** The order on risk tiers used to state monotonicity: a higher tier is a
    higher risk. *)
Definition risk_severity (r : string) : Z :=
  if String.eqb r "HIGH" then 2%Z
  else if String.eqb r "MEDIUM" then 1%Z
  else 0%Z.

(** The verdict returned for an upload, from a generator state. *)
Definition verdict {S : Random.Source}
  (file : UploadFile) (g : Random.gen S) : dict :=
  body (fst (app (PostVerify file) g)).

(** A sample upload, a script for the generator, and an upload of 6 MiB. *)
Definition sample_upload : UploadFile :=
  {| filename := "strip.png"; content_type := "image/png";
     content := [Byte.x89; Byte.x50; Byte.x4e; Byte.x47] |}.

Definition sample_script : list Z := [0; 0; 0; 2 ^ 52; 2 ^ 52; 0]%Z.

Definition oversized_upload : UploadFile :=
  {| filename := "scan.png"; content_type := "image/png";
     content := repeat Byte.x00 (Z.to_nat 6291456) |}.

(** ** Admission control (section 4.1 of the specification)

    [main.py] has no admission controller: [POST /verify] admits every
    request.  The controller below follows the words of the specification;
    ticket deadlines, which need a clock, are left out. *)

Module AdmissionController.

Local Open Scope nat_scope.

(** Modelled from the spec: the controller's state, absent from [main.py]:
    the configured capacity, the tickets in flight and the next ticket
    number ("maintains a bounded counter of in-flight tickets"). *)
Record controller : Type := {
  capacity : nat;
  in_flight : list nat;
  next_ticket : nat
}.

(** Modelled from the spec: the result of [admit()], absent from [main.py]:
    "admit() -> AdmissionTicket | Rejected". *)
Inductive admission : Type :=
| Ticket (id : nat)
| Rejected.

(** Modelled from the spec: a fresh controller, absent from [main.py], with
    nothing in flight. *)
Definition create (c : nat) : controller :=
  {| capacity := c; in_flight := []; next_ticket := 0 |}.

(** Modelled from the spec: the current in-flight count, absent from
    [main.py]. *)
Definition count (s : controller) : nat := List.length (in_flight s).

(** Modelled from the spec: [admit()], absent from [main.py] (named
    [admit_request] here): "if current
    in-flight count < capacity, increment and return a ticket; otherwise
    return Rejected immediately". *)
Definition admit_request (s : controller) : admission * controller :=
  if count s <? capacity s
  then (Ticket (next_ticket s),
        {| capacity := capacity s;
           in_flight := next_ticket s :: in_flight s;
           next_ticket := S (next_ticket s) |})
  else (Rejected, s).

(** Modelled from the spec: release of a ticket, absent from [main.py]:
    "releasing an already-released ticket is a no-op, not an error". *)
Definition release (id : nat) (s : controller) : controller :=
  {| capacity := capacity s;
     in_flight := List.remove Nat.eq_dec id (in_flight s);
     next_ticket := next_ticket s |}.

(** Modelled from the spec: [n] calls of [admit()] in a row, none released
    ("after capacity C tickets are admitted without release"). *)
Fixpoint admit_many (n : nat) (s : controller) : list admission * controller :=
  match n with
  | O => ([], s)
  | S n' =>
      let r := admit_request s in
      let rs := admit_many n' (snd r) in
      (fst r :: fst rs, snd rs)
  end.

(** Modelled from the spec: the invariant of the controller's state, absent
    from [main.py]: the tickets in flight are distinct and were all issued. *)
Definition well_formed (s : controller) : Prop :=
  NoDup (in_flight s) /\ Forall (fun id => id < next_ticket s) (in_flight s).

End AdmissionController.

(** ** The hash string and sequences of requests *)

(** The characters [format(n, "x")] can produce. *)
Definition lower_hex_digit (c : ascii) : bool :=
  existsb (Ascii.eqb c) (list_ascii_of_string "0123456789abcdef").

Fixpoint all_chars (p : ascii -> bool) (s : string) : bool :=
  match s with
  | EmptyString => true
  | String c rest => p c && all_chars p rest
  end.

(** [int(s, 16)] on a string of hexadecimal digits. *)
Definition parse_hex (s : string) : Z := Z.of_N (HexString.Raw.to_N s 0).

(** Sequences of requests.

    The handlers of [main.py] never suspend, so the requests one process
    answers run one after the other, each from the generator state the
    previous one left. *)

Definition is_verify (r : request) : bool :=
  match r with
  | PostVerify _ => true
  | _ => false
  end.

Fixpoint serve {S : Random.Source} (rs : list request)
  : Random.Rand S (list response) :=
  match rs with
  | [] => Random.ret []
  | r :: rest =>
      answer <- app r ;;
      answers <- serve rest ;;
      Random.ret (answer :: answers)
  end.

(** The answers given to the [POST /verify] requests of a sequence. *)
Definition verify_answers (rs : list request) (answers : list response)
  : list response :=
  map snd (filter (fun p => is_verify (fst p)) (combine rs answers)).

(** * Part II: theorems *)

(** ** Binary64 arithmetic *)

Module Float64Facts.

Import Float64.
Local Open Scope Q_scope.

(** *** Rounding to an integer *)

Lemma Qfloor_bounds (x : Q) : inject_Z (Qfloor x) <= x < inject_Z (Qfloor x) + 1.
Proof.
  split; [apply Qfloor_le|].
  generalize (Qlt_floor x). rewrite inject_Z_plus. auto.
Qed.

Lemma round_half_even_near (x : Q) :
  inject_Z (round_half_even x) - (1#2) <= x <= inject_Z (round_half_even x) + (1#2).
Proof.
  unfold round_half_even.
  destruct (Qfloor_bounds x) as [H1 H2].
  destruct (Qcompare_spec (x - inject_Z (Qfloor x)) (1#2)) as [E|E|E];
    [destruct (Z.even (Qfloor x))|..];
    rewrite ?inject_Z_plus; simpl inject_Z at 1; try (change (inject_Z 1) with 1); lra.
Qed.

Lemma round_half_even_mono (x y : Q) :
  x <= y -> (round_half_even x <= round_half_even y)%Z.
Proof.
  intros Hxy.
  pose proof (Qfloor_resp_le _ _ Hxy) as Hf.
  destruct (Qfloor_bounds x) as [Hx1 Hx2], (Qfloor_bounds y) as [Hy1 Hy2].
  destruct (Z.eq_dec (Qfloor x) (Qfloor y)) as [E|N].
  - unfold round_half_even. rewrite <- E.
    destruct (Qcompare_spec (x - inject_Z (Qfloor x)) (1#2)) as [Ex|Ex|Ex];
    destruct (Qcompare_spec (y - inject_Z (Qfloor x)) (1#2)) as [Ey|Ey|Ey];
    destruct (Z.even (Qfloor x)); try lia; exfalso; lra.
  - assert (Hlt : (Qfloor x + 1 <= Qfloor y)%Z) by lia.
    apply Z.le_trans with (Qfloor x + 1)%Z.
    + unfold round_half_even.
      destruct (Qcompare (x - inject_Z (Qfloor x)) (1#2)); [destruct (Z.even _)|..]; lia.
    + apply Z.le_trans with (Qfloor y); [exact Hlt|].
      unfold round_half_even.
      destruct (Qcompare (y - inject_Z (Qfloor y)) (1#2)); [destruct (Z.even _)|..]; lia.
Qed.

Lemma round_half_even_Z (z : Z) : round_half_even (inject_Z z) = z.
Proof.
  unfold round_half_even. rewrite Qfloor_Z.
  destruct (Qcompare_spec (inject_Z z - inject_Z z) (1#2)) as [E|E|E]; try reflexivity; exfalso; lra.
Qed.

(** *** Binades *)

Lemma two_neq0 : ~ 2 == 0.
Proof. discriminate. Qed.

Lemma pow2_pos (e : Z) : 0 < 2 ^ e.
Proof. apply Qpower_0_lt. reflexivity. Qed.

Lemma pow2_add (a b : Z) : 2 ^ (a + b) == 2 ^ a * 2 ^ b.
Proof. apply Qpower_plus, two_neq0. Qed.

Lemma pow2_le (a b : Z) : (a <= b)%Z -> 2 ^ a <= 2 ^ b.
Proof. intros H. apply Qpower_le_compat_l; [exact H | discriminate]. Qed.

Lemma pow2_lt_inv (a b : Z) : 2 ^ a < 2 ^ b -> (a < b)%Z.
Proof. intros H. apply (Qpower_lt_compat_l_inv 2); [exact H | reflexivity]. Qed.

Lemma pow2_inject (a : Z) : (0 <= a)%Z -> inject_Z (2 ^ a) == 2 ^ a.
Proof. intros H. apply (Zpower_Qpower 2 a H). Qed.

Lemma Q_as_fraction (x : Q) : x * inject_Z (Zpos (Qden x)) == inject_Z (Qnum x).
Proof.
  destruct x as [n d]. unfold Qeq, Qmult, inject_Z. simpl. lia.
Qed.

Lemma ilog2_spec (x : Q) : 0 < x -> 2 ^ ilog2 x <= x < 2 ^ (ilog2 x + 1).
Proof.
  intros Hx.
  assert (Hn : (0 < Qnum x)%Z).
  { destruct x as [n d]. unfold Qlt in Hx. simpl in *. lia. }
  pose proof (Q_as_fraction x) as Hfrac.
  set (a := Z.log2 (Qnum x)). set (b := Z.log2 (Zpos (Qden x))).
  destruct (Z.log2_spec (Qnum x) Hn) as [Ha1 Ha2].
  destruct (Z.log2_spec (Zpos (Qden x)) (Pos2Z.is_pos _)) as [Hb1 Hb2].
  fold a in Ha1, Ha2. fold b in Hb1, Hb2.
  assert (H0a : (0 <= a)%Z) by apply Z.log2_nonneg.
  assert (H0b : (0 <= b)%Z) by apply Z.log2_nonneg.
  set (D := inject_Z (Zpos (Qden x))) in *.
  set (N := inject_Z (Qnum x)) in *.
  assert (HD : 0 < D) by (unfold D, Qlt; simpl; lia).
  assert (HN1 : 2 ^ a <= N).
  { rewrite <- pow2_inject by lia. unfold N. rewrite <- Zle_Qle. exact Ha1. }
  assert (HN2 : N < 2 ^ (a + 1)).
  { rewrite <- pow2_inject by lia. unfold N. rewrite <- Zlt_Qlt. exact Ha2. }
  assert (HD1 : 2 ^ b <= D).
  { rewrite <- pow2_inject by lia. unfold D. rewrite <- Zle_Qle. exact Hb1. }
  assert (HD2 : D < 2 ^ (b + 1)).
  { rewrite <- pow2_inject by lia. unfold D. rewrite <- Zlt_Qlt. exact Hb2. }
  unfold ilog2. fold a b.
  set (l := (a - b)%Z).
  destruct (Qle_bool (2 ^ l) x) eqn:E.
  - apply Qle_bool_iff in E. split; [exact E|].
    apply (Qmult_lt_r _ _ D HD). rewrite Hfrac.
    apply Qlt_le_trans with (2 ^ (a + 1)); [exact HN2|].
    assert (Hp : 2 ^ (a + 1) == 2 ^ (l + 1) * 2 ^ b).
    { rewrite <- pow2_add. replace (l + 1 + b)%Z with (a + 1)%Z by (unfold l; lia).
      reflexivity. }
    rewrite Hp.
    apply Qmult_le_l; [apply pow2_pos | exact HD1].
  - assert (Hlt : x < 2 ^ l).
    { apply Qnot_le_lt. intros C. apply Qle_bool_iff in C. congruence. }
    split.
    + apply (Qmult_le_r _ _ D HD). rewrite Hfrac.
      apply Qle_trans with (2 ^ a); [|exact HN1].
      assert (Hp : 2 ^ a == 2 ^ (l - 1) * 2 ^ (b + 1)).
      { rewrite <- pow2_add. replace (l - 1 + (b + 1))%Z with a by (unfold l; lia).
        reflexivity. }
      rewrite Hp.
      apply Qmult_le_l; [apply pow2_pos | apply Qlt_le_weak, HD2].
    + replace (l - 1 + 1)%Z with l by lia. exact Hlt.
Qed.

Lemma ilog2_mono (x y : Q) : 0 < x -> x <= y -> (ilog2 x <= ilog2 y)%Z.
Proof.
  intros Hx Hxy.
  destruct (ilog2_spec x Hx) as [H1 _].
  destruct (ilog2_spec y) as [_ H2]; [lra|].
  assert (H : 2 ^ ilog2 x < 2 ^ (ilog2 y + 1)) by lra.
  apply pow2_lt_inv in H. lia.
Qed.

Lemma fexp_ge_emin (x : Q) : (emin <= fexp x)%Z.
Proof. unfold fexp. lia. Qed.

Lemma fexp_upper (x : Q) : 0 < x -> x < 2 ^ (fexp x + prec).
Proof.
  intros Hx. destruct (ilog2_spec x Hx) as [_ H].
  apply Qlt_le_trans with (1 := H). apply pow2_le. unfold fexp, prec. lia.
Qed.

Lemma fexp_lower (x : Q) :
  0 < x -> (emin < fexp x)%Z -> 2 ^ (fexp x + (prec - 1)) <= x.
Proof.
  intros Hx He. destruct (ilog2_spec x Hx) as [H _].
  apply Qle_trans with (2 := H). apply pow2_le. unfold fexp, prec in *. lia.
Qed.

Lemma fexp_mono (x y : Q) : 0 < x -> x <= y -> (fexp x <= fexp y)%Z.
Proof.
  intros Hx Hxy. pose proof (ilog2_mono x y Hx Hxy). unfold fexp. lia.
Qed.

(** *** Rounding to a double *)

Lemma Qabs_nonneg_eq (x : Q) : 0 <= x -> Qabs x = x.
Proof.
  destruct x as [n d]. unfold Qle, Qabs. simpl. intros H.
  f_equal. apply Z.abs_eq. lia.
Qed.

Lemma rnd_pos_unfold (x : Q) :
  0 < x -> rnd x = inject_Z (round_half_even (x / 2 ^ fexp x)) * 2 ^ fexp x.
Proof.
  intros Hx. unfold rnd.
  destruct (Qeq_bool x 0) eqn:E.
  - apply Qeq_bool_iff in E. lra.
  - rewrite Qabs_nonneg_eq by lra. reflexivity.
Qed.

Lemma rnd_zero (x : Q) : x == 0 -> rnd x = 0.
Proof.
  intros H. unfold rnd. apply Qeq_bool_iff in H. rewrite H. reflexivity.
Qed.

Lemma Qdiv_le_mono (x y p : Q) : 0 < p -> x <= y -> x / p <= y / p.
Proof.
  intros Hp Hxy. unfold Qdiv. apply Qmult_le_compat_r; [exact Hxy|].
  apply Qlt_le_weak, Qinv_lt_0_compat, Hp.
Qed.

Lemma round_half_even_nonneg (x : Q) : 0 <= x -> (0 <= round_half_even x)%Z.
Proof.
  intros H. rewrite <- (round_half_even_Z 0). apply round_half_even_mono. exact H.
Qed.

Lemma rnd_nonneg (x : Q) : 0 <= x -> 0 <= rnd x.
Proof.
  intros Hx. destruct (Qeq_dec x 0) as [E|N].
  - rewrite rnd_zero by exact E. lra.
  - rewrite rnd_pos_unfold by lra.
    apply Qmult_le_0_compat; [|apply Qlt_le_weak, pow2_pos].
    change 0 with (inject_Z 0). rewrite <- Zle_Qle.
    apply round_half_even_nonneg.
    apply Qle_shift_div_l; [apply pow2_pos | lra].
Qed.

(** Rounding to the nearest double is monotone (on the non-negative
    rationals, the only ones this program computes with). *)
Lemma rnd_mono (x y : Q) : 0 <= x -> x <= y -> rnd x <= rnd y.
Proof.
  intros Hx Hxy. destruct (Qeq_dec x 0) as [E|N].
  - rewrite (rnd_zero x E). apply rnd_nonneg. lra.
  - assert (Hx' : 0 < x) by lra. assert (Hy' : 0 < y) by lra.
    rewrite (rnd_pos_unfold x Hx'), (rnd_pos_unfold y Hy').
    pose proof (fexp_mono x y Hx' Hxy) as He.
    destruct (Z.eq_dec (fexp x) (fexp y)) as [Ee|Ne].
    + rewrite <- Ee.
      apply Qmult_le_compat_r; [|apply Qlt_le_weak, pow2_pos].
      rewrite <- Zle_Qle. apply round_half_even_mono.
      apply Qdiv_le_mono; [apply pow2_pos | exact Hxy].
    + assert (Hlt : (fexp x < fexp y)%Z) by lia.
      pose proof (fexp_ge_emin x) as Hmin.
      apply Qle_trans with (2 ^ (fexp x + prec)).
      * rewrite Z.add_comm, pow2_add.
        apply Qmult_le_compat_r; [|apply Qlt_le_weak, pow2_pos].
        rewrite <- (pow2_inject prec) by (unfold prec; lia).
        rewrite <- Zle_Qle.
        rewrite <- (round_half_even_Z (2 ^ prec)).
        apply round_half_even_mono.
        rewrite (pow2_inject prec) by (unfold prec; lia).
        apply Qle_shift_div_r; [apply pow2_pos|].
        rewrite <- pow2_add, Z.add_comm. apply Qlt_le_weak, fexp_upper, Hx'.
      * apply Qle_trans with (2 ^ (fexp y + (prec - 1))).
        { apply pow2_le. lia. }
        rewrite Z.add_comm, pow2_add.
        apply Qmult_le_compat_r; [|apply Qlt_le_weak, pow2_pos].
        rewrite <- (pow2_inject (prec - 1)) by (unfold prec; lia).
        rewrite <- Zle_Qle.
        rewrite <- (round_half_even_Z (2 ^ (prec - 1))) at 1.
        apply round_half_even_mono.
        rewrite (pow2_inject (prec - 1)) by (unfold prec; lia).
        apply Qle_shift_div_l; [apply pow2_pos|].
        rewrite <- pow2_add, Z.add_comm. apply fexp_lower; [exact Hy' | lia].
Qed.

Lemma rnd_compat (x y : Q) : 0 <= x -> x == y -> rnd x == rnd y.
Proof.
  intros Hx E. apply Qle_antisym; apply rnd_mono; lra.
Qed.

(** *** The operations are monotone *)

Lemma fmul_mono (d u v : Q) : 0 <= d -> 0 <= u -> u <= v -> fmul d u <= fmul d v.
Proof.
  intros Hd Hu Huv. unfold fmul. apply rnd_mono.
  - apply Qmult_le_0_compat; assumption.
  - rewrite !(Qmult_comm d). apply Qmult_le_compat_r; assumption.
Qed.

Lemma fmul_mono_l (u v s : Q) : 0 <= s -> 0 <= u -> u <= v -> fmul u s <= fmul v s.
Proof.
  intros Hs Hu Huv. unfold fmul. apply rnd_mono.
  - apply Qmult_le_0_compat; assumption.
  - apply Qmult_le_compat_r; assumption.
Qed.

Lemma fadd_mono (a p q : Q) : 0 <= a -> 0 <= p -> p <= q -> fadd a p <= fadd a q.
Proof.
  intros Ha Hp Hpq. unfold fadd. apply rnd_mono; lra.
Qed.

Lemma fmul_nonneg (x y : Q) : 0 <= x -> 0 <= y -> 0 <= fmul x y.
Proof.
  intros Hx Hy. apply rnd_nonneg, Qmult_le_0_compat; assumption.
Qed.

Lemma scale_pos (n : Z) : (0 <= n)%Z -> 0 < inject_Z (10 ^ n).
Proof.
  intros Hn. change 0 with (inject_Z 0). rewrite <- Zlt_Qlt.
  apply Z.pow_pos_nonneg; lia.
Qed.

Lemma py_round_digits (x : Q) (n : Z) :
  py_round x n = rnd (inject_Z (decimal_digits x n) / inject_Z (10 ^ n)).
Proof. reflexivity. Qed.

Lemma decimal_digits_mono (x y : Q) (n : Z) :
  (0 <= n)%Z -> x <= y -> (decimal_digits x n <= decimal_digits y n)%Z.
Proof.
  intros Hn Hxy. apply round_half_even_mono.
  apply Qmult_le_compat_r; [exact Hxy | apply Qlt_le_weak, scale_pos, Hn].
Qed.

Lemma py_round_mono (x y : Q) (n : Z) :
  (0 <= n)%Z -> 0 <= x -> x <= y -> py_round x n <= py_round y n.
Proof.
  intros Hn Hx Hxy. rewrite !py_round_digits.
  pose proof (scale_pos n Hn) as Hs.
  pose proof (decimal_digits_mono x y n Hn Hxy) as Hd.
  assert (H0 : (0 <= decimal_digits x n)%Z).
  { apply round_half_even_nonneg, Qmult_le_0_compat; [exact Hx | lra]. }
  apply rnd_mono.
  - apply Qle_shift_div_l; [exact Hs|]. rewrite Qmult_0_l.
    change 0 with (inject_Z 0). rewrite <- Zle_Qle. exact H0.
  - apply Qdiv_le_mono; [exact Hs|]. rewrite <- Zle_Qle. exact Hd.
Qed.

(** [round(x, ndigits)] is the double nearest to a decimal with [ndigits]
    fractional digits. *)
Lemma py_round_literal (x : Q) (n : Z) :
  (0 <= n)%Z -> 0 <= x ->
  py_round x n == literal (decimal_digits x n) (Z.to_pos (10 ^ n)).
Proof.
  intros Hn Hx. rewrite py_round_digits. unfold literal.
  pose proof (scale_pos n Hn) as Hs.
  assert (Hp : (0 < 10 ^ n)%Z) by (apply Z.pow_pos_nonneg; lia).
  assert (H0 : (0 <= decimal_digits x n)%Z).
  { apply round_half_even_nonneg, Qmult_le_0_compat; [exact Hx | lra]. }
  apply rnd_compat.
  - apply Qle_shift_div_l; [exact Hs|]. rewrite Qmult_0_l.
    change 0 with (inject_Z 0). rewrite <- Zle_Qle. exact H0.
  - rewrite (Qmake_Qdiv (decimal_digits x n) (Z.to_pos (10 ^ n))).
    rewrite Z2Pos.id by exact Hp. reflexivity.
Qed.

Lemma fgtb_true (x y : Q) : y < x -> fgtb x y = true.
Proof.
  intros H. unfold fgtb. destruct (Qle_bool x y) eqn:E; [|reflexivity].
  apply Qle_bool_iff in E. lra.
Qed.

Lemma fgtb_iff (x y : Q) : fgtb x y = true <-> y < x.
Proof.
  split; [|apply fgtb_true].
  unfold fgtb. destruct (Qle_bool x y) eqn:E; [discriminate|]. intros _.
  apply Qnot_le_lt. intros C. apply Qle_bool_iff in C. congruence.
Qed.

End Float64Facts.

(** Closed comparisons of rationals, by computation. *)
Ltac qle := apply Qle_bool_iff; vm_compute; reflexivity.
Ltac qeq := apply Qeq_bool_iff; vm_compute; reflexivity.
Ltac qlt := apply Qlt_alt; vm_compute; reflexivity.

(** [rnd] against the floats of the machine and the documented results of
    [round]. *)
Module Float64Machine.

Import Float64.
Local Open Scope Q_scope.
Local Set Warnings "-inexact-float".

Example literal_agrees : of_machine 0.55%float == literal 55 100.
Proof. qeq. Qed.

Example uniform_agrees :
  of_machine (0.55 + (0.95 - 0.55) * 0.5)%float
  == fadd (literal 55 100)
       (fmul (fsub (literal 95 100) (literal 55 100)) (1 # 2)).
Proof. qeq. Qed.

Example uniform_top_agrees :
  of_machine (0.1 + (0.5 - 0.1) * 0x1.fffffffffffffp-1)%float
  == fadd (literal 1 10)
       (fmul (fsub (literal 5 10) (literal 1 10)) Random.random_max).
Proof. qeq. Qed.

Example percentage_agrees :
  of_machine (0.55 * 100)%float == fmul (literal 55 100) (of_int 100).
Proof. qeq. Qed.

Example round_half_to_even :
  py_round (of_machine 0.125%float) 2 == of_machine 0.12%float
  /\ py_round (of_machine 0.375%float) 2 == of_machine 0.38%float.
Proof. split; qeq. Qed.

Example round_below_half :
  py_round (of_machine 2.675%float) 2 == of_machine 2.67%float.
Proof. qeq. Qed.

End Float64Machine.

(** ** The scripted generator *)

Module Scripted.

Import Random.

Lemma scripted_random53_range (g : list Z) :
  (0 <= fst (scripted_random53 g) < 2 ^ 53)%Z.
Proof.
  destruct g as [|k rest]; simpl fst.
  - split; [lia | reflexivity].
  - apply Z.mod_pos_bound. reflexivity.
Qed.

Lemma scripted_randbelow_range (n : Z) (g : list Z) :
  (0 < n)%Z -> (0 <= fst (scripted_randbelow n g) < n)%Z.
Proof.
  intros Hn. destruct g as [|k rest]; simpl fst.
  - lia.
  - apply Z.mod_pos_bound, Hn.
Qed.

Definition source : Source := {|
  gen := list Z;
  random53 := scripted_random53;
  randbelow := scripted_randbelow;
  random53_range := scripted_random53_range;
  randbelow_range := scripted_randbelow_range
|}.

End Scripted.

(** ** Ranges of the draws *)

Module Draws.

Import Float64 Float64Facts.
Local Open Scope Q_scope.

Section Ranges.

Context {S : Random.Source}.

Lemma random_range (g : Random.gen S) :
  0 <= fst (Random.random g) <= Random.random_max.
Proof.
  pose proof (Random.random53_range S g) as [H0 H1].
  unfold Random.random, Random.random_max, Qle. simpl fst. simpl Qnum. simpl Qden.
  split; nia.
Qed.

Lemma uniform_range (a b : Q) (g : Random.gen S) :
  0 <= a -> 0 <= fsub b a ->
  fadd a (fmul (fsub b a) 0) <= fst (Random.uniform a b g)
    <= fadd a (fmul (fsub b a) Random.random_max).
Proof.
  intros Ha Hd. destruct (random_range g) as [H0 H1].
  unfold Random.uniform, Random.bind, Random.ret. simpl fst.
  split; apply fadd_mono; try exact Ha.
  - apply fmul_nonneg; [exact Hd | lra].
  - apply fmul_mono; [exact Hd | lra | exact H0].
  - apply fmul_nonneg; [exact Hd | exact H0].
  - apply fmul_mono; [exact Hd | exact H0 | exact H1].
Qed.

(** [random.uniform(0.55, 0.95)] lies between the doubles 0.55 and 0.95. *)
Lemma confidence_draw_range (g : Random.gen S) :
  literal 55 100 <= fst (Random.uniform (literal 55 100) (literal 95 100) g)
    <= literal 95 100.
Proof.
  destruct (uniform_range (literal 55 100) (literal 95 100) g) as [H0 H1];
    [qle | qle |].
  split.
  - apply Qle_trans with (2 := H0). qle.
  - apply Qle_trans with (1 := H1). qle.
Qed.

(** [random.uniform(0.1, 0.5)] lies between the doubles 0.1 and 0.5. *)
Lemma anomaly_draw_range (g : Random.gen S) :
  literal 1 10 <= fst (Random.uniform (literal 1 10) (literal 5 10) g)
    <= literal 5 10.
Proof.
  destruct (uniform_range (literal 1 10) (literal 5 10) g) as [H0 H1];
    [qle | qle |].
  split.
  - apply Qle_trans with (2 := H0). qle.
  - apply Qle_trans with (1 := H1). qle.
Qed.

Lemma randint_range (a b : Z) (g : Random.gen S) :
  (a <= b)%Z -> (a <= fst (Random.randint a b g) <= b)%Z.
Proof.
  intros Hab. unfold Random.randint, Random.bind, Random.ret. simpl fst.
  pose proof (Random.randbelow_range S (b - a + 1) g). lia.
Qed.

End Ranges.

(** The percentage [round(c * 100, 1)] of a raw confidence in [0.55, 0.95]. *)
Lemma percentage_range (c : Q) :
  literal 55 100 <= c <= literal 95 100 ->
  let pct := py_round (fmul c (of_int 100)) 1 in
  55 <= pct <= 95 /\
  exists m : Z, (550 <= m <= 950)%Z /\ pct == literal m 10.
Proof.
  intros [H0 H1] pct.
  assert (Ha : 0 <= literal 55 100) by qle.
  assert (Hs : 0 <= of_int 100) by qle.
  assert (Hc : 0 <= c) by lra.
  assert (Hx0 : fmul (literal 55 100) (of_int 100) <= fmul c (of_int 100)).
  { apply fmul_mono_l; assumption. }
  assert (Hx1 : fmul c (of_int 100) <= fmul (literal 95 100) (of_int 100)).
  { apply fmul_mono_l; assumption. }
  assert (Hx : 0 <= fmul c (of_int 100)) by (apply fmul_nonneg; assumption).
  assert (Hxa : 0 <= fmul (literal 55 100) (of_int 100)) by qle.
  split; [split|].
  - apply Qle_trans with (py_round (fmul (literal 55 100) (of_int 100)) 1); [qle|].
    apply py_round_mono; [lia | exact Hxa | exact Hx0].
  - apply Qle_trans with (py_round (fmul (literal 95 100) (of_int 100)) 1); [|qle].
    apply py_round_mono; [lia | exact Hx | exact Hx1].
  - exists (decimal_digits (fmul c (of_int 100)) 1). split.
    + split.
      * change 550%Z with (decimal_digits (fmul (literal 55 100) (of_int 100)) 1) at 1.
        apply decimal_digits_mono; [lia | exact Hx0].
      * change 950%Z with (decimal_digits (fmul (literal 95 100) (of_int 100)) 1) at 1.
        apply decimal_digits_mono; [lia | exact Hx1].
    + apply (py_round_literal _ 1); [lia | exact Hx].
Qed.

(** The anomaly score [round(x, 3)] of a draw in [0.1, 0.5]. *)
Lemma anomaly_range (x : Q) :
  literal 1 10 <= x <= literal 5 10 ->
  let a := py_round x 3 in
  literal 1 10 <= a <= literal 5 10 /\
  exists m : Z, (100 <= m <= 500)%Z /\ a == literal m 1000.
Proof.
  intros [H0 H1] a.
  assert (Ha : 0 <= literal 1 10) by qle.
  assert (Hx : 0 <= x) by lra.
  split; [split|].
  - apply Qle_trans with (py_round (literal 1 10) 3); [qle|].
    apply py_round_mono; [lia | exact Ha | exact H0].
  - apply Qle_trans with (py_round (literal 5 10) 3); [|qle].
    apply py_round_mono; [lia | exact Hx | exact H1].
  - exists (decimal_digits x 3). split.
    + split.
      * change 100%Z with (decimal_digits (literal 1 10) 3) at 1.
        apply decimal_digits_mono; [lia | exact H0].
      * change 500%Z with (decimal_digits (literal 5 10) 3) at 1.
        apply decimal_digits_mono; [lia | exact H1].
    + apply (py_round_literal _ 3); [lia | exact Hx].
Qed.

End Draws.

(** ** Verdicts of [POST /verify] *)

Section Verdicts.

Context {S : Random.Source}.

Import Float64 Float64Facts.
Local Open Scope Q_scope.

Lemma verdict_unfold (file : UploadFile) (g : Random.gen S) :
  let r1 := Random.uniform (literal 55 100) (literal 95 100) g in
  let r2 := Random.uniform (literal 1 10) (literal 5 10) (snd r1) in
  let r3 := Random.randint (10 ^ 63) (10 ^ 64 - 1) (snd r2) in
  verdict file g =
    [("authentic", JBool (fgtb (fst r1) (literal 5 10)));
     ("confidence", JFloat (py_round (fmul (fst r1) (of_int 100)) 1));
     ("risk_level",
      JString (if fgtb (fst r1) (literal 5 10) then "LOW" else "HIGH"));
     ("anomaly_score", JFloat (py_round (fst r2) 3));
     ("blockchain_hash", JString ("0x" ++ format_064x (fst r3)))]%string.
Proof. reflexivity. Qed.

(** Every verdict: the flag is set, the tier is LOW, and the numbers lie in
    the ranges the draws allow. *)
Lemma verdict_shape (file : UploadFile) (g : Random.gen S) :
  exists (c a : Q) (n : Z),
    verdict file g =
      [("authentic", JBool true);
       ("confidence", JFloat c);
       ("risk_level", JString "LOW");
       ("anomaly_score", JFloat a);
       ("blockchain_hash", JString ("0x" ++ format_064x n))]%string
    /\ (55 <= c <= 95 /\
        exists m : Z, (550 <= m <= 950)%Z /\ c == literal m 10)
    /\ (literal 1 10 <= a <= literal 5 10 /\
        exists m : Z, (100 <= m <= 500)%Z /\ a == literal m 1000)
    /\ (10 ^ 63 <= n <= 10 ^ 64 - 1)%Z.
Proof.
  pose proof (verdict_unfold file g) as E. cbv zeta in E.
  set (r1 := Random.uniform (literal 55 100) (literal 95 100) g) in *.
  set (r2 := Random.uniform (literal 1 10) (literal 5 10) (snd r1)) in *.
  set (r3 := Random.randint (10 ^ 63) (10 ^ 64 - 1) (snd r2)) in *.
  pose proof (Draws.confidence_draw_range g) as Hc. fold r1 in Hc.
  pose proof (Draws.anomaly_draw_range (snd r1)) as Ha. fold r2 in Ha.
  assert (Hn : (10 ^ 63 <= fst r3 <= 10 ^ 64 - 1)%Z).
  { apply Draws.randint_range. vm_compute. discriminate. }
  assert (Hauth : fgtb (fst r1) (literal 5 10) = true).
  { apply fgtb_true. apply Qlt_le_trans with (literal 55 100); [|apply Hc].
    qlt. }
  rewrite Hauth in E.
  exists (py_round (fmul (fst r1) (of_int 100)) 1), (py_round (fst r2) 3), (fst r3).
  split; [exact E|]. split; [|split].
  - exact (Draws.percentage_range (fst r1) Hc).
  - exact (Draws.anomaly_range (fst r2) Ha).
  - exact Hn.
Qed.

(** C1. For every verdict of [POST /verify], the authenticity flag is true
    if and only if the confidence percentage, [round(confidence * 100, 1)],
    exceeds the threshold 50.0. *)
Theorem authentic_iff_confidence_above_threshold
  (file : UploadFile) (g : Random.gen S) :
  exists (b : bool) (c : Q),
    field "authentic" (verdict file g) = Some (JBool b)
    /\ field "confidence" (verdict file g) = Some (JFloat c)
    /\ c = py_round (fmul (fst (Random.uniform (literal 55 100) (literal 95 100) g))
                       (of_int 100)) 1
    /\ (b = true <-> 50 < c).
Proof.
  pose proof (Draws.confidence_draw_range g) as Hc.
  destruct (Draws.percentage_range _ Hc) as [Hp _]. cbv zeta in Hp.
  assert (Hauth : fgtb (fst (Random.uniform (literal 55 100) (literal 95 100) g))
                    (literal 5 10) = true).
  { apply fgtb_true. apply Qlt_le_trans with (literal 55 100); [|apply Hc].
    qlt. }
  rewrite verdict_unfold. cbv zeta.
  cbn [field String.eqb Ascii.eqb Bool.eqb].
  eexists. eexists. split; [reflexivity|]. split; [reflexivity|].
  split; [reflexivity|].
  split; [intros _; lra | intros _; exact Hauth].
Qed.

(** C5. For every verdict of [POST /verify], [risk_level] is "LOW" when the
    flag is true and "HIGH" otherwise, never another value; and over any two
    verdicts the tier is monotone in the confidence percentage: a higher
    percentage never comes with a higher risk. *)
Theorem risk_level_two_tier_and_monotone
  (file1 file2 : UploadFile) (g1 g2 : Random.gen S) :
  exists (b1 b2 : bool) (c1 c2 : Q) (r1 r2 : string),
    (field "authentic" (verdict file1 g1) = Some (JBool b1)
     /\ field "confidence" (verdict file1 g1) = Some (JFloat c1)
     /\ field "risk_level" (verdict file1 g1) = Some (JString r1))
    /\ (field "authentic" (verdict file2 g2) = Some (JBool b2)
        /\ field "confidence" (verdict file2 g2) = Some (JFloat c2)
        /\ field "risk_level" (verdict file2 g2) = Some (JString r2))
    /\ r1 = (if b1 then "LOW" else "HIGH")%string
    /\ r2 = (if b2 then "LOW" else "HIGH")%string
    /\ (c1 <= c2 -> (risk_severity r2 <= risk_severity r1)%Z).
Proof.
  destruct (verdict_shape file1 g1) as (c1 & a1 & n1 & E1 & _).
  destruct (verdict_shape file2 g2) as (c2 & a2 & n2 & E2 & _).
  rewrite E1, E2.
  exists true, true, c1, c2, "LOW"%string, "LOW"%string.
  cbn [field String.eqb Ascii.eqb Bool.eqb].
  split; [repeat split|]. split; [repeat split|].
  split; [reflexivity|]. split; [reflexivity|].
  intros _. apply Z.le_refl.
Qed.

(** C6. Every answer of [POST /verify] has status 200 and exactly the fields
    authentic (a boolean), confidence (a float), risk_level, anomaly_score
    (a float) and blockchain_hash (a string); the confidence is a one-decimal
    value in [0, 100], the anomaly score a three-decimal value, and the tier
    is LOW or HIGH, LOW exactly when the confidence exceeds 50.0. *)
Theorem verify_response_contract (file : UploadFile) (g : Random.gen S) :
  exists (b : bool) (c a : Q) (r h : string),
    fst (app (PostVerify file) g) =
      {| status_code := 200;
         body := [("authentic", JBool b);
                  ("confidence", JFloat c);
                  ("risk_level", JString r);
                  ("anomaly_score", JFloat a);
                  ("blockchain_hash", JString h)]%string |}
    /\ 0 <= c <= 100
    /\ (exists m : Z, c == literal m 10)
    /\ (exists m : Z, a == literal m 1000)
    /\ (r = "LOW"%string \/ r = "HIGH"%string)
    /\ (r = "LOW"%string <-> 50 < c).
Proof.
  destruct (verdict_shape file g)
    as (c & a & n & E & [Hc (m1 & _ & Hm1)] & [_ (m3 & _ & Hm3)] & _).
  exists true, c, a, "LOW"%string, ("0x" ++ format_064x n)%string.
  split; [|repeat split].
  - change (fst (app (PostVerify file) g)) with (ok (verdict file g)).
    rewrite E. reflexivity.
  - lra.
  - lra.
  - exists m1. exact Hm1.
  - exists m3. exact Hm3.
  - left. reflexivity.
  - intros _. lra.
Qed.

(** C9. Every verdict of [POST /verify] has [authentic = true] and
    [risk_level = "LOW"]: the raw confidence is drawn from [0.55, 0.95],
    strictly above the threshold 0.5.  The confidence lies in [55.0, 95.0]
    and the anomaly score in [0.1, 0.5]; the HIGH tier is never returned. *)
Theorem verdict_always_authentic_low (file : UploadFile) (g : Random.gen S) :
  exists (c a : Q) (h : string),
    verdict file g =
      [("authentic", JBool true);
       ("confidence", JFloat c);
       ("risk_level", JString "LOW");
       ("anomaly_score", JFloat a);
       ("blockchain_hash", JString h)]%string
    /\ (literal 5 10 < literal 55 100
        /\ literal 55 100
             <= fst (Random.uniform (literal 55 100) (literal 95 100) g)
             <= literal 95 100)
    /\ 55 <= c <= 95
    /\ literal 1 10 <= a <= literal 5 10
    /\ field "risk_level" (verdict file g) <> Some (JString "HIGH").
Proof.
  destruct (verdict_shape file g) as (c & a & n & E & [Hc _] & [Ha _] & _).
  exists c, a, ("0x" ++ format_064x n)%string.
  split; [exact E|]. split; [split; [qlt | apply Draws.confidence_draw_range]|].
  split; [exact Hc|]. split; [exact Ha|].
  rewrite E. discriminate.
Qed.

(** C2, as amended.  A verdict is a function of the values drawn from the
    generator and of nothing else: two runs from the same generator state
    return the same verdict; any two runs agree on the flag and the tier;
    they agree on the confidence when their first [random()] draws agree,
    and on the anomaly score when their second draws agree. *)
Theorem verdict_determined_by_draws
  (file1 file2 : UploadFile) (g1 g2 : Random.gen S) :
  (g1 = g2 -> verdict file1 g1 = verdict file2 g2)
  /\ field "authentic" (verdict file1 g1) = field "authentic" (verdict file2 g2)
  /\ field "risk_level" (verdict file1 g1) = field "risk_level" (verdict file2 g2)
  /\ (fst (Random.random g1) = fst (Random.random g2) ->
      field "confidence" (verdict file1 g1)
        = field "confidence" (verdict file2 g2))
  /\ (fst (Random.random (snd (Random.random g1)))
        = fst (Random.random (snd (Random.random g2))) ->
      field "anomaly_score" (verdict file1 g1)
        = field "anomaly_score" (verdict file2 g2)).
Proof.
  split; [intros ->; reflexivity|].
  destruct (verdict_shape file1 g1) as (c1 & a1 & n1 & E1 & _).
  destruct (verdict_shape file2 g2) as (c2 & a2 & n2 & E2 & _).
  split; [rewrite E1, E2; reflexivity|].
  split; [rewrite E1, E2; reflexivity|].
  rewrite !verdict_unfold. cbv zeta.
  split; intros H.
  - cbn [field String.eqb Ascii.eqb Bool.eqb].
    unfold Random.uniform, Random.bind, Random.ret. cbn [fst snd].
    rewrite H. reflexivity.
  - cbn [field String.eqb Ascii.eqb Bool.eqb].
    unfold Random.uniform, Random.bind, Random.ret. cbn [fst snd].
    rewrite H. reflexivity.
Qed.

(** C3, as amended.  [POST /verify] checks no size: every upload, whatever
    its size, is answered with status 200 and a five-field verdict, never
    with 413. *)
Theorem verify_never_rejects_for_size (file : UploadFile) (g : Random.gen S) :
  status_code (fst (app (PostVerify file) g)) = 200%Z
  /\ status_code (fst (app (PostVerify file) g)) <> 413%Z
  /\ keys (body (fst (app (PostVerify file) g)))
       = ["authentic"; "confidence"; "risk_level"; "anomaly_score";
          "blockchain_hash"]%string.
Proof.
  split; [reflexivity|]. split; [discriminate|]. reflexivity.
Qed.

(** C10. The answer of [POST /verify] does not depend on the upload: from
    the same generator state any two uploads, whatever their content, name
    and media type, get the same answer and leave the same state; and no
    upload is rejected. *)
Theorem verify_ignores_the_upload
  (file1 file2 : UploadFile) (g : Random.gen S) :
  app (PostVerify file1) g = app (PostVerify file2) g
  /\ status_code (fst (app (PostVerify file1) g)) = 200%Z.
Proof.
  split; reflexivity.
Qed.

(** C7. [GET /health] answers 200 with the body
    [{"status": "healthy", "service": "medchain-oracle-api"}] in every state,
    and leaves the state as it was. *)
Theorem health_check_constant (g : Random.gen S) :
  app GetHealth g =
    ({| status_code := 200;
        body := [("status", JString "healthy");
                 ("service", JString "medchain-oracle-api")]%string |}, g).
Proof.
  reflexivity.
Qed.

(** C8. [GET /shortage-prediction] answers 200 with the fields drug,
    location, risk_score and recommendation, and the same payload on every
    call. *)
Theorem predict_shortage_constant (g g' : Random.gen S) :
  status_code (fst (app GetShortagePrediction g)) = 200%Z
  /\ keys (body (fst (app GetShortagePrediction g)))
       = ["drug"; "location"; "risk_score"; "recommendation"]%string
  /\ body (fst (app GetShortagePrediction g))
       = [("drug", JString "Insulin Glargine 100U/mL");
          ("location", JString "Mumbai Central");
          ("risk_score", JFloat (literal 850 10));
          ("recommendation", JString "URGENT: Order 259 units immediately")]%string
  /\ fst (app GetShortagePrediction g) = fst (app GetShortagePrediction g')
  /\ snd (app GetShortagePrediction g) = g.
Proof.
  repeat split.
Qed.

End Verdicts.

(** ** The properties on concrete inputs *)

Section Concrete.

Import Float64 Float64Facts.
Local Open Scope Q_scope.

(** The generator state left by a first [POST /verify] of the sample. *)
Definition second_state : list Z :=
  snd (app (S := Scripted.source) (PostVerify sample_upload) sample_script).

(** C2, counterexample.  The same upload verified twice in a row, the
    generator yielding [random()] = 0.0, 0.0 for the first request and
    0.5, 0.5 for the second: the confidence is 55.0 and then 75.0, the
    anomaly score 0.1 and then 0.3. *)
Lemma same_upload_twice_differs :
  exists c1 c2 a1 a2 : Q,
    field "confidence" (verdict (S := Scripted.source) sample_upload sample_script)
      = Some (JFloat c1)
    /\ field "confidence" (verdict (S := Scripted.source) sample_upload second_state)
         = Some (JFloat c2)
    /\ field "anomaly_score" (verdict (S := Scripted.source) sample_upload sample_script)
         = Some (JFloat a1)
    /\ field "anomaly_score" (verdict (S := Scripted.source) sample_upload second_state)
         = Some (JFloat a2)
    /\ c1 == 55 /\ c2 == 75
    /\ a1 == literal 1 10 /\ a2 == literal 3 10
    /\ ~ c1 == c2 /\ ~ a1 == a2.
Proof.
  eexists. eexists. eexists. eexists.
  split; [vm_compute; reflexivity|]. split; [vm_compute; reflexivity|].
  split; [vm_compute; reflexivity|]. split; [vm_compute; reflexivity|].
  split; [qeq|]. split; [qeq|]. split; [qeq|]. split; [qeq|].
  split; intros H; apply Qeq_bool_iff in H; vm_compute in H; discriminate H.
Qed.

(** C3, counterexample.  An upload of 6 MiB, above a ceiling of 5 MiB, is
    answered with status 200 and a verdict. *)
Lemma oversized_upload_accepted :
  (5 * 1024 * 1024 < size oversized_upload)%Z
  /\ status_code
       (fst (app (S := Scripted.source) (PostVerify oversized_upload) sample_script))
     = 200%Z
  /\ keys (verdict (S := Scripted.source) oversized_upload sample_script)
     = ["authentic"; "confidence"; "risk_level"; "anomaly_score";
        "blockchain_hash"]%string.
Proof.
  split; [|split; reflexivity].
  unfold size, oversized_upload. cbn [content].
  rewrite repeat_length, Z2Nat.id; lia.
Qed.

(** C1 on the sample: the flag is set and the confidence 55.0 exceeds 50.0. *)
Lemma authentic_iff_confidence_above_threshold_sample :
  exists (b : bool) (c : Q),
    field "authentic" (verdict (S := Scripted.source) sample_upload sample_script)
      = Some (JBool b)
    /\ field "confidence" (verdict (S := Scripted.source) sample_upload sample_script)
         = Some (JFloat c)
    /\ (b = true <-> 50 < c).
Proof.
  destruct (authentic_iff_confidence_above_threshold
              (S := Scripted.source) sample_upload sample_script)
    as (b & c & Hb & Hc & _ & Hiff).
  exists b, c. split; [exact Hb|]. split; [exact Hc | exact Hiff].
Defined.

(** C2, as amended, on the sample: both runs set the flag. *)
Lemma verdict_determined_by_draws_sample :
  field "authentic" (verdict (S := Scripted.source) sample_upload sample_script)
  = field "authentic" (verdict (S := Scripted.source) sample_upload second_state).
Proof.
  exact (proj1 (proj2 (verdict_determined_by_draws
                         (S := Scripted.source) sample_upload sample_upload
                         sample_script second_state))).
Defined.

(** C3, as amended, on the upload of 6 MiB. *)
Lemma verify_never_rejects_for_size_sample :
  status_code
    (fst (app (S := Scripted.source) (PostVerify oversized_upload) sample_script))
  = 200%Z.
Proof.
  exact (proj1 (verify_never_rejects_for_size
                  (S := Scripted.source) oversized_upload sample_script)).
Defined.

(** C5 on the two runs of the sample: both tiers are LOW. *)
Lemma risk_level_two_tier_and_monotone_sample :
  exists (b1 b2 : bool) (r1 r2 : string),
    field "risk_level" (verdict (S := Scripted.source) sample_upload sample_script)
      = Some (JString r1)
    /\ field "risk_level" (verdict (S := Scripted.source) sample_upload second_state)
         = Some (JString r2)
    /\ r1 = (if b1 then "LOW" else "HIGH")%string
    /\ r2 = (if b2 then "LOW" else "HIGH")%string.
Proof.
  destruct (risk_level_two_tier_and_monotone
              (S := Scripted.source) sample_upload sample_upload
              sample_script second_state)
    as (b1 & b2 & c1 & c2 & r1 & r2 & (_ & _ & H1) & (_ & _ & H2) & E1 & E2 & _).
  exists b1, b2, r1, r2. repeat split; assumption.
Defined.

(** C6 on the sample. *)
Lemma verify_response_contract_sample :
  exists (c : Q),
    field "confidence"
      (body (fst (app (S := Scripted.source) (PostVerify sample_upload) sample_script)))
    = Some (JFloat c)
    /\ 0 <= c <= 100.
Proof.
  destruct (verify_response_contract
              (S := Scripted.source) sample_upload sample_script)
    as (b & c & a & r & h & E & Hc & _).
  exists c. rewrite E. split; [reflexivity | exact Hc].
Defined.

(** C7 on the scripted generator. *)
Lemma health_check_constant_sample :
  body (fst (app (S := Scripted.source) GetHealth sample_script))
  = [("status", JString "healthy");
     ("service", JString "medchain-oracle-api")]%string.
Proof.
  rewrite (health_check_constant (S := Scripted.source) sample_script).
  reflexivity.
Defined.

(** C8 on the scripted generator. *)
Lemma predict_shortage_constant_sample :
  keys (body (fst (app (S := Scripted.source) GetShortagePrediction sample_script)))
  = ["drug"; "location"; "risk_score"; "recommendation"]%string.
Proof.
  exact (proj1 (proj2 (predict_shortage_constant
                         (S := Scripted.source) sample_script second_state))).
Defined.

(** C9 on the sample. *)
Lemma verdict_always_authentic_low_sample :
  field "authentic" (verdict (S := Scripted.source) sample_upload sample_script)
    = Some (JBool true)
  /\ field "risk_level" (verdict (S := Scripted.source) sample_upload sample_script)
       = Some (JString "LOW").
Proof.
  destruct (verdict_always_authentic_low
              (S := Scripted.source) sample_upload sample_script)
    as (c & a & h & E & _).
  rewrite E. split; reflexivity.
Defined.

(** C10 on the sample and the upload of 6 MiB. *)
Lemma verify_ignores_the_upload_sample :
  app (S := Scripted.source) (PostVerify sample_upload) sample_script
  = app (S := Scripted.source) (PostVerify oversized_upload) sample_script.
Proof.
  exact (proj1 (verify_ignores_the_upload
                  (S := Scripted.source) sample_upload oversized_upload
                  sample_script)).
Defined.

End Concrete.

(** ** Admission control *)

Module AdmissionFacts.

Import AdmissionController.
Local Open Scope nat_scope.

Lemma create_well_formed (c : nat) : well_formed (create c).
Proof. split; constructor. Qed.

Lemma admit_below_capacity (s : controller) :
  count s < capacity s ->
  admit_request s = (Ticket (next_ticket s),
             {| capacity := capacity s;
                in_flight := next_ticket s :: in_flight s;
                next_ticket := S (next_ticket s) |}).
Proof.
  intros H. unfold admit_request. apply Nat.ltb_lt in H. rewrite H. reflexivity.
Qed.

Lemma admit_at_capacity (s : controller) :
  capacity s <= count s -> admit_request s = (Rejected, s).
Proof.
  intros H. unfold admit_request. apply Nat.ltb_ge in H. rewrite H. reflexivity.
Qed.

Lemma admit_well_formed (s : controller) :
  well_formed s -> well_formed (snd (admit_request s)).
Proof.
  intros [Hnd Hlt]. unfold admit_request.
  destruct (count s <? capacity s); [|split; assumption].
  split; simpl.
  - constructor; [|exact Hnd]. intros Hin.
    rewrite Forall_forall in Hlt. specialize (Hlt _ Hin). lia.
  - constructor; [lia|]. eapply Forall_impl; [|exact Hlt].
    simpl. intros a Ha. lia.
Qed.

Lemma admit_capacity (s : controller) : capacity (snd (admit_request s)) = capacity s.
Proof. unfold admit_request. destruct (count s <? capacity s); reflexivity. Qed.

Lemma remove_present_length (id : nat) (l : list nat) :
  NoDup l -> In id l ->
  S (List.length (List.remove Nat.eq_dec id l)) = List.length l.
Proof.
  induction l as [|x l IH]; intros Hnd Hin; [contradiction|].
  inversion Hnd as [|? ? Hx Hl]; subst. simpl.
  destruct (Nat.eq_dec id x) as [->|Hne].
  - rewrite notin_remove by exact Hx. reflexivity.
  - simpl. f_equal. apply IH; [exact Hl|].
    destruct Hin as [->|Hin]; [contradiction | exact Hin].
Qed.

(** Releasing twice is releasing once. *)
Lemma release_idempotent (id : nat) (s : controller) :
  release id (release id s) = release id s.
Proof.
  unfold release. simpl. f_equal.
  apply notin_remove. apply remove_In.
Qed.

(** [n] admissions that fit under the capacity all succeed, and their
    tickets are in flight afterwards. *)
Lemma admit_many_fits (n : nat) (s : controller) :
  well_formed s -> count s + n <= capacity s ->
  let r := admit_many n s in
  List.length (fst r) = n
  /\ (forall a, In a (fst r) -> exists id, a = Ticket id /\ In id (in_flight (snd r)))
  /\ count (snd r) = count s + n
  /\ capacity (snd r) = capacity s
  /\ well_formed (snd r)
  /\ (forall id, In id (in_flight s) -> In id (in_flight (snd r))).
Proof.
  revert s. induction n as [|n IH]; intros s Hwf Hfit; simpl.
  - repeat split; try apply Hwf; try lia; auto.
  - assert (Hlt : count s < capacity s) by lia.
    pose proof (admit_well_formed s Hwf) as Hwf'.
    rewrite (admit_below_capacity s Hlt) in *. simpl fst. simpl snd in *.
    set (s' := {| capacity := capacity s;
                  in_flight := next_ticket s :: in_flight s;
                  next_ticket := S (next_ticket s) |}) in *.
    assert (Hfit' : count s' + n <= capacity s').
    { unfold count, s' in *. simpl. lia. }
    destruct (IH s' Hwf' Hfit') as (Hlen & Htick & Hcount & Hcap & Hwf'' & Hkeep).
    repeat split.
    + simpl. f_equal. exact Hlen.
    + intros a [<-|Hin].
      * exists (next_ticket s). split; [reflexivity|].
        apply Hkeep. left. reflexivity.
      * apply Htick, Hin.
    + rewrite Hcount. unfold count, s'. simpl. lia.
    + rewrite Hcap. reflexivity.
    + apply Hwf''.
    + apply Hwf''.
    + intros id Hin. apply Hkeep. right. exact Hin.
Qed.

(** C4. [admit()] returns a ticket while the in-flight count is below the
    capacity and Rejected otherwise.  After [C] tickets are admitted without
    release to a fresh controller of capacity [C], the next [admit()] is
    Rejected; after one of them is released, the next [admit()] returns a
    ticket. *)
Theorem admit_until_capacity (C : nat) :
  (forall s, count s < capacity s -> exists id, fst (admit_request s) = Ticket id
                                     /\ count (snd (admit_request s)) = S (count s))
  /\ (forall s, capacity s <= count s -> admit_request s = (Rejected, s))
  /\ List.length (fst (admit_many C (create C))) = C
  /\ (forall a, In a (fst (admit_many C (create C))) -> a <> Rejected)
  /\ fst (admit_request (snd (admit_many C (create C)))) = Rejected
  /\ (forall id, In (Ticket id) (fst (admit_many C (create C))) ->
      exists id', fst (admit_request (release id (snd (admit_many C (create C)))))
                  = Ticket id').
Proof.
  split; [|split].
  - intros s H. exists (next_ticket s).
    rewrite (admit_below_capacity s H). split; reflexivity.
  - exact admit_at_capacity.
  - destruct (admit_many_fits C (create C) (create_well_formed C))
      as (Hlen & Htick & Hcount & Hcap & Hwf & _); [simpl; lia|].
    simpl in Hcount, Hcap.
    split; [exact Hlen|]. split; [|split].
    + intros a Hin. destruct (Htick a Hin) as (id & -> & _). discriminate.
    + rewrite admit_at_capacity; [reflexivity|]. lia.
    + intros id Hin. destruct (Htick _ Hin) as (id0 & E & Hfl).
      injection E as <-.
      set (s := snd (admit_many C (create C))) in *.
      assert (Hlt : count (release id s) < capacity (release id s)).
      { unfold count, release. simpl.
        pose proof (remove_present_length id (in_flight s) (proj1 Hwf) Hfl).
        unfold count in Hcount. lia. }
      exists (next_ticket (release id s)).
      rewrite (admit_below_capacity _ Hlt). reflexivity.
Qed.

(** C4 on a controller of capacity 2: the third [admit()] is Rejected. *)
Lemma admit_until_capacity_sample :
  fst (admit_request (snd (admit_many 2 (create 2)))) = Rejected.
Proof.
  exact (proj1 (proj2 (proj2 (proj2 (proj2 (admit_until_capacity 2)))))).
Defined.

End AdmissionFacts.

(** ** The hash string *)

Module HexFacts.

Local Open Scope Z_scope.
Local Open Scope string_scope.

Lemma length_append (s t : string) :
  String.length (s ++ t) = (String.length s + String.length t)%nat.
Proof. induction s as [|c s IH]; simpl; [reflexivity | now rewrite IH]. Qed.

Lemma all_chars_append (p : ascii -> bool) (s t : string) :
  all_chars p (s ++ t) = all_chars p s && all_chars p t.
Proof.
  induction s as [|c s IH]; simpl; [reflexivity|].
  rewrite IH. apply andb_assoc.
Qed.

Lemma to_N_append (s t : string) (acc : N) :
  HexString.Raw.to_N (s ++ t) acc
  = HexString.Raw.to_N t (HexString.Raw.to_N s acc).
Proof.
  revert acc. induction s as [|c s IH]; intros acc; simpl; [reflexivity|].
  apply IH.
Qed.

(** The digits of a positive number: their count is the hexadecimal length
    of the number, and each is a lower-case digit. *)
Lemma of_pos_digits (p : positive) :
  forall rest : string,
  exists k : nat,
    String.length (HexString.Raw.of_pos p rest) = (S k + String.length rest)%nat
    /\ 16 ^ Z.of_nat k <= Z.pos p < 16 ^ Z.of_nat (S k)
    /\ (all_chars lower_hex_digit rest = true ->
        all_chars lower_hex_digit (HexString.Raw.of_pos p rest) = true).
Proof.
  remember (Pos.to_nat p) as n eqn:En. revert p En.
  induction n as [n IH] using lt_wf_ind. intros p En rest.
  assert (Hstep : forall (q : positive) (c : ascii) (r : Z),
    (Pos.to_nat q < n)%nat -> lower_hex_digit c = true ->
    Z.pos p = 16 * Z.pos q + r -> 0 <= r < 16 ->
    HexString.Raw.of_pos p rest = HexString.Raw.of_pos q (String c rest) ->
    exists k : nat,
      String.length (HexString.Raw.of_pos p rest) = (S k + String.length rest)%nat
      /\ 16 ^ Z.of_nat k <= Z.pos p < 16 ^ Z.of_nat (S k)
      /\ (all_chars lower_hex_digit rest = true ->
          all_chars lower_hex_digit (HexString.Raw.of_pos p rest) = true)).
  { intros q c r Hlt Hc Hp Hr Heq.
    destruct (IH _ Hlt q eq_refl (String c rest)) as (k & Hlen & Hb & Hall).
    exists (S k). rewrite Heq. split; [|split].
    - rewrite Hlen. simpl. lia.
    - rewrite Hp. rewrite !Nat2Z.inj_succ, !Z.pow_succ_r in * by lia. lia.
    - intros Hrest. apply Hall. simpl. rewrite Hc, Hrest. reflexivity. }
  do 4 try destruct p as [p|p|];
    try (exists 0%nat; split; [reflexivity | split; [split; [easy | reflexivity] | intros Hrest; simpl; rewrite Hrest; reflexivity]]);
    match goal with
    | |- context [HexString.Raw.of_pos (?q~1~1~1~1) _] => apply (Hstep q "f"%char 15)
    | |- context [HexString.Raw.of_pos (?q~1~1~1~0) _] => apply (Hstep q "e"%char 14)
    | |- context [HexString.Raw.of_pos (?q~1~1~0~1) _] => apply (Hstep q "d"%char 13)
    | |- context [HexString.Raw.of_pos (?q~1~1~0~0) _] => apply (Hstep q "c"%char 12)
    | |- context [HexString.Raw.of_pos (?q~1~0~1~1) _] => apply (Hstep q "b"%char 11)
    | |- context [HexString.Raw.of_pos (?q~1~0~1~0) _] => apply (Hstep q "a"%char 10)
    | |- context [HexString.Raw.of_pos (?q~1~0~0~1) _] => apply (Hstep q "9"%char 9)
    | |- context [HexString.Raw.of_pos (?q~1~0~0~0) _] => apply (Hstep q "8"%char 8)
    | |- context [HexString.Raw.of_pos (?q~0~1~1~1) _] => apply (Hstep q "7"%char 7)
    | |- context [HexString.Raw.of_pos (?q~0~1~1~0) _] => apply (Hstep q "6"%char 6)
    | |- context [HexString.Raw.of_pos (?q~0~1~0~1) _] => apply (Hstep q "5"%char 5)
    | |- context [HexString.Raw.of_pos (?q~0~1~0~0) _] => apply (Hstep q "4"%char 4)
    | |- context [HexString.Raw.of_pos (?q~0~0~1~1) _] => apply (Hstep q "3"%char 3)
    | |- context [HexString.Raw.of_pos (?q~0~0~1~0) _] => apply (Hstep q "2"%char 2)
    | |- context [HexString.Raw.of_pos (?q~0~0~0~1) _] => apply (Hstep q "1"%char 1)
    | |- context [HexString.Raw.of_pos (?q~0~0~0~0) _] => apply (Hstep q "0"%char 0)
    end;
    try reflexivity; try lia.
Qed.

Lemma zeros_succ (k : nat) :
  String.concat "" (repeat "0" (S k)) = String "0" (String.concat "" (repeat "0" k)).
Proof. destruct k; reflexivity. Qed.

Lemma zeros_length (k : nat) :
  String.length (String.concat "" (repeat "0" k)) = k.
Proof.
  induction k as [|k IH]; [reflexivity|].
  rewrite zeros_succ. simpl. now rewrite IH.
Qed.

Lemma zeros_lower_hex (k : nat) :
  all_chars lower_hex_digit (String.concat "" (repeat "0" k)) = true.
Proof.
  induction k as [|k IH]; [reflexivity|].
  rewrite zeros_succ. simpl. exact IH.
Qed.

Lemma zeros_to_N (k : nat) :
  HexString.Raw.to_N (String.concat "" (repeat "0" k)) 0 = 0%N.
Proof.
  induction k as [|k IH]; [reflexivity|].
  rewrite zeros_succ. simpl. exact IH.
Qed.

(** [format(n, "064x")] for a positive [n] below [16 ** 64]: 64 lower-case
    hexadecimal digits that read back as [n]; [k + 1] of them are
    significant, [16 ** k <= n < 16 ** (k + 1)], the others are zeros. *)
Lemma format_064x_digits (n : Z) :
  0 < n < 16 ^ 64 ->
  exists (k : nat) (digits : string),
    format_064x n = String.concat "" (repeat "0" (63 - k)) ++ digits
    /\ String.length digits = S k
    /\ 16 ^ Z.of_nat k <= n < 16 ^ Z.of_nat (S k)
    /\ String.length (format_064x n) = 64%nat
    /\ all_chars lower_hex_digit (format_064x n) = true
    /\ parse_hex (format_064x n) = n.
Proof.
  intros [Hpos Hlt]. destruct n as [|p|p]; try lia.
  destruct (HexFacts.of_pos_digits p "") as (k & Hlen & Hb & Hall).
  simpl String.length in Hlen. rewrite Nat.add_0_r in Hlen.
  assert (Hk : (k < 64)%nat).
  { apply Nat2Z.inj_lt. apply (Z.pow_lt_mono_r_iff 16); lia. }
  exists k, (HexString.Raw.of_pos p "").
  assert (E : format_064x (Z.pos p)
              = String.concat "" (repeat "0" (63 - k)) ++ HexString.Raw.of_pos p "").
  { unfold format_064x, zfill. rewrite Hlen.
    replace (64 - S k)%nat with (63 - k)%nat by lia. reflexivity. }
  split; [exact E|]. split; [exact Hlen|]. split; [exact Hb|].
  rewrite E. split; [|split].
  - rewrite length_append, zeros_length, Hlen. lia.
  - rewrite all_chars_append, zeros_lower_hex. apply Hall. reflexivity.
  - unfold parse_hex. rewrite to_N_append, zeros_to_N.
    rewrite HexString.Raw.to_N_of_pos. reflexivity.
Qed.

End HexFacts.

Section HashProperties.

Context {R : Random.Source}.

Local Open Scope Z_scope.
Local Open Scope string_scope.


(** X2. The [blockchain_hash] of every verdict starts with ["0x"] and ten
    zeros: the integer drawn is below [10**64 < 16**54], so at most 54 of
    the 64 digits are significant. *)
Theorem blockchain_hash_leading_zeros (file : UploadFile) (g : Random.gen R) :
  exists rest : string,
    field "blockchain_hash" (verdict file g)
      = Some (JString ("0x0000000000" ++ rest))
    /\ String.length rest = 54%nat.
Proof.
  rewrite verdict_unfold. cbv zeta.
  set (r3 := Random.randint _ _ _).
  assert (Hn : 10 ^ 63 <= fst r3 <= 10 ^ 64 - 1).
  { apply Draws.randint_range. vm_compute. discriminate. }
  destruct (HexFacts.format_064x_digits (fst r3))
    as (k & d & E & Hd & [Hlo Hhi] & Hlen & _).
  { split; [|apply Z.le_lt_trans with (10 ^ 64 - 1); [apply Hn | reflexivity]].
    apply Z.lt_le_trans with (10 ^ 63); [reflexivity | apply Hn]. }
  assert (Hk1 : (k < 54)%nat).
  { apply Nat2Z.inj_lt. apply (Z.pow_lt_mono_r_iff 16); [lia | lia |].
    apply Z.le_lt_trans with (1 := Hlo).
    apply Z.le_lt_trans with (10 ^ 64 - 1); [apply Hn | reflexivity]. }
  assert (Hk0 : (52 <= k)%nat).
  { assert (H : (52 < S k)%nat); [|lia].
    apply Nat2Z.inj_lt. apply (Z.pow_lt_mono_r_iff 16); [lia | lia |].
    apply Z.lt_le_trans with (10 ^ 63); [reflexivity|].
    apply Z.le_trans with (fst r3); [apply Hn | lia]. }
  cbn [field String.eqb Ascii.eqb Bool.eqb]. rewrite E.
  assert (Hcases : k = 52%nat \/ k = 53%nat) by lia.
  destruct Hcases as [-> | ->].
  - exists ("0" ++ d). split; [reflexivity|]. simpl. rewrite Hd. reflexivity.
  - exists d. split; [reflexivity | exact Hd].
Qed.

End HashProperties.

(** ** Sequences of requests *)

Section Sequences.

Context {R : Random.Source}.

Lemma serve_cons (r : request) (rest : list request) (g : Random.gen R) :
  serve (r :: rest) g
  = (fst (app r g) :: fst (serve rest (snd (app r g))),
     snd (serve rest (snd (app r g)))).
Proof. reflexivity. Qed.

Lemma get_leaves_state (r : request) (g g' : Random.gen R) :
  is_verify r = false ->
  snd (app r g) = g /\ fst (app r g) = fst (app r g').
Proof.
  destruct r; intros H; try discriminate H; split; reflexivity.
Qed.

(** X3. The three GET routes neither read nor advance the generator: taking
    the GET requests out of a sequence changes neither the answers to its
    [POST /verify] requests nor the state it leaves, and the answer to a GET
    request is the same wherever it stands. *)
Theorem get_requests_are_invisible (rs : list request) (g : Random.gen R) :
  snd (serve rs g) = snd (serve (filter is_verify rs) g)
  /\ verify_answers rs (fst (serve rs g)) = fst (serve (filter is_verify rs) g)
  /\ (forall (r : request) (a : response) (g' : Random.gen R),
        In (r, a) (combine rs (fst (serve rs g))) ->
        is_verify r = false -> a = fst (app r g')).
Proof.
  revert g. induction rs as [|r rest IH]; intros g.
  - split; [reflexivity|]. split; [reflexivity|]. intros r a g' [].
  - rewrite serve_cons. cbn [fst snd filter combine].
    destruct (is_verify r) eqn:Hr.
    + rewrite serve_cons. cbn [fst snd].
      destruct (IH (snd (app r g))) as (H1 & H2 & H3).
      split; [exact H1|]. split.
      * unfold verify_answers. cbn [combine filter fst map snd]. rewrite Hr.
        cbn [map snd]. f_equal. exact H2.
      * intros r' a g' [E|Hin] Hr'.
        -- injection E as <- <-. congruence.
        -- exact (H3 r' a g' Hin Hr').
    + destruct (get_leaves_state r g g Hr) as [Hs _]. rewrite Hs.
      destruct (IH g) as (H1 & H2 & H3).
      split; [exact H1|]. split.
      * unfold verify_answers. cbn [combine filter fst map snd]. rewrite Hr.
        exact H2.
      * intros r' a g' [E|Hin] Hr'.
        -- injection E as <- <-. apply (get_leaves_state r g g' Hr).
        -- exact (H3 r' a g' Hin Hr').
Qed.

End Sequences.

Section ScriptedSequences.

Lemma scripted_verify_state (file : UploadFile) (script : list Z) :
  snd (app (S := Scripted.source) (PostVerify file) script) = skipn 3 script.
Proof.
  destruct script as [|k1 [|k2 [|k3 rest]]]; reflexivity.
Qed.

(** X4. Every [POST /verify] makes exactly three draws and a GET request
    none: a sequence of requests with [n] verifications consumes the first
    [3 * n] entries of the generator's script. *)
Theorem verify_consumes_three_draws (rs : list request) (script : list Z) :
  snd (serve (S := Scripted.source) rs script)
  = skipn (3 * List.length (filter is_verify rs)) script.
Proof.
  revert script. induction rs as [|r rest IH]; intros script.
  - reflexivity.
  - rewrite serve_cons. cbn [snd filter]. rewrite IH.
    destruct r as [| |file|]; cbn [is_verify List.length];
      try reflexivity.
    rewrite scripted_verify_state, skipn_skipn. f_equal. lia.
Qed.

End ScriptedSequences.

(** ** From the draws to the verdict *)

Section DrawsToVerdict.

Context {R : Random.Source}.

Import Float64 Float64Facts.
Local Open Scope Q_scope.

Lemma random_mono (g1 g2 : Random.gen R) :
  (fst (Random.random53 R g1) <= fst (Random.random53 R g2))%Z ->
  fst (Random.random g1) <= fst (Random.random g2).
Proof.
  intros H. unfold Random.random, Qle. cbn [fst Qnum Qden]. nia.
Qed.

Lemma uniform_mono (a b : Q) (g1 g2 : Random.gen R) :
  0 <= a -> 0 <= fsub b a ->
  (fst (Random.random53 R g1) <= fst (Random.random53 R g2))%Z ->
  fst (Random.uniform a b g1) <= fst (Random.uniform a b g2).
Proof.
  intros Ha Hd H. pose proof (random_mono g1 g2 H) as Hu.
  destruct (Draws.random_range g1) as [H0 _].
  unfold Random.uniform, Random.bind, Random.ret. cbn [fst].
  apply fadd_mono; [exact Ha | apply fmul_nonneg; assumption |].
  apply fmul_mono; assumption.
Qed.

(** X5. The confidence of a verdict is a non-decreasing function of the
    first [random()] draw of the request, and the anomaly score of the
    second: a larger draw never gives a smaller value. *)
Theorem verdict_monotone_in_draws
  (file1 file2 : UploadFile) (g1 g2 : Random.gen R) :
  exists c1 c2 a1 a2 : Q,
    field "confidence" (verdict file1 g1) = Some (JFloat c1)
    /\ field "confidence" (verdict file2 g2) = Some (JFloat c2)
    /\ field "anomaly_score" (verdict file1 g1) = Some (JFloat a1)
    /\ field "anomaly_score" (verdict file2 g2) = Some (JFloat a2)
    /\ ((fst (Random.random53 R g1) <= fst (Random.random53 R g2))%Z ->
        c1 <= c2)
    /\ ((fst (Random.random53 R (snd (Random.random53 R g1)))
         <= fst (Random.random53 R (snd (Random.random53 R g2))))%Z ->
        a1 <= a2).
Proof.
  rewrite !verdict_unfold. cbv zeta.
  cbn [field String.eqb Ascii.eqb Bool.eqb].
  do 4 eexists. do 4 (split; [reflexivity|]).
  split; intros H.
  - apply py_round_mono; [lia | |].
    + apply fmul_nonneg; [|qle].
      apply Qle_trans with (literal 55 100); [qle|].
      exact (proj1 (Draws.confidence_draw_range g1)).
    + apply fmul_mono_l; [qle | |].
      * apply Qle_trans with (literal 55 100); [qle|].
        exact (proj1 (Draws.confidence_draw_range g1)).
      * apply uniform_mono; [qle | qle | exact H].
  - apply py_round_mono; [lia | |].
    + apply Qle_trans with (literal 1 10); [qle|].
      exact (proj1 (Draws.anomaly_draw_range _)).
    + apply uniform_mono; [qle | qle | exact H].
Qed.

(** X6. The bounds of the verdict are attained: a first draw of 0 gives the
    confidence 55.0 and a first draw of [2**53 - 1] gives 95.0; a second
    draw of 0 gives the anomaly score 0.1 and of [2**53 - 1] gives 0.5. *)
Theorem verdict_bounds_attained (file : UploadFile) (g : Random.gen R) :
  exists c a : Q,
    field "confidence" (verdict file g) = Some (JFloat c)
    /\ field "anomaly_score" (verdict file g) = Some (JFloat a)
    /\ (fst (Random.random53 R g) = 0%Z -> c == 55)
    /\ (fst (Random.random53 R g) = (2 ^ 53 - 1)%Z -> c == 95)
    /\ (fst (Random.random53 R (snd (Random.random53 R g))) = 0%Z ->
        a == literal 1 10)
    /\ (fst (Random.random53 R (snd (Random.random53 R g))) = (2 ^ 53 - 1)%Z ->
        a == literal 5 10).
Proof.
  rewrite verdict_unfold. cbv zeta.
  cbn [field String.eqb Ascii.eqb Bool.eqb].
  do 2 eexists. do 2 (split; [reflexivity|]).
  unfold Random.uniform, Random.bind, Random.ret, Random.random.
  cbn [fst snd].
  split; [|split; [|split]]; intros H; rewrite H; qeq.
Qed.

End DrawsToVerdict.

(** X5 on two scripts: the draws 0 and [2**52] give 55.0 and 75.0. *)
Lemma verdict_monotone_in_draws_sample :
  exists c1 c2 : Q,
    field "confidence" (verdict (S := Scripted.source) sample_upload sample_script)
      = Some (JFloat c1)
    /\ field "confidence"
         (verdict (S := Scripted.source) sample_upload (skipn 3 sample_script))
       = Some (JFloat c2)
    /\ (c1 <= c2)%Q.
Proof.
  destruct (verdict_monotone_in_draws (R := Scripted.source)
              sample_upload sample_upload sample_script (skipn 3 sample_script))
    as (c1 & c2 & a1 & a2 & H1 & H2 & _ & _ & Hc & _).
  exists c1, c2. split; [exact H1|]. split; [exact H2|].
  apply Hc. vm_compute. discriminate.
Defined.

(** X6 on the sample script, whose first draw is 0. *)
Lemma verdict_bounds_attained_sample :
  exists c : Q,
    field "confidence" (verdict (S := Scripted.source) sample_upload sample_script)
      = Some (JFloat c)
    /\ (c == 55)%Q.
Proof.
  destruct (verdict_bounds_attained (R := Scripted.source)
              sample_upload sample_script)
    as (c & a & H1 & _ & Hlo & _).
  exists c. split; [exact H1|]. apply Hlo. reflexivity.
Defined.
